(** * Holoscan SDK: the GXF Python bindings and the asynchronous condition

    A shallow embedding of
    - [AsynchronousCondition::event_state] (setter and getter),
    - the maps [DataMap] and [DataVecMap] of [MultiAIPostprocessorOp], and
    - the [_gxf] pybind11 module: [load_extensions], [PyEntity::py_get],
      [PyEntity::py_add], [GXFInputContext.receive],
      [GXFOutputContext.emit] and the [GXFExtensionRegistrar] bindings
      [add_component] / [add_type] with their [default_tid].

    C++ objects reached through pointers live in explicit stores, calls that
    can throw return an [outcome], and the external engine (GXF) enters only
    through interfaces (type classes) whose operations the code calls. *)

From stdpp Require Import base option list gmap strings.
From Stdlib Require Import ZArith Ascii String.

(* ===================================================================== *)
(** * Part I. Definitions                                                 *)
(* ===================================================================== *)

(** ** Calls across the Python boundary *)

(** The C++ exceptions that can leave a binding; pybind11 turns
    [pybind11::value_error] into [ValueError], and [pybind11::cast_error]
    (a failed [py::cast]) into [RuntimeError]. *)
Inductive py_exception : Type :=
  | value_error (what : string)
  | cast_error.

(** What a bound function does when called: it returns or it raises. *)
Inductive outcome (A : Type) : Type :=
  | Returned (a : A)
  | Raised (e : py_exception).
Arguments Returned {A} a.
Arguments Raised {A} e.

Definition raises {A : Type} (o : outcome A) : bool :=
  match o with Returned _ => false | Raised _ => true end.

(** ** The asynchronous condition *)

Module Asynchronous.

(** Modelled from the spec: the enumeration [AsynchronousEventState] is
    declared in the engine's headers, which are not among the sources; the
    data model gives the event state as one of [EVENT_WAITING], [EVENT_DONE],
    [EVENT_NEVER]. *)
Inductive AsynchronousEventState : Type :=
  | EVENT_WAITING
  | EVENT_DONE
  | EVENT_NEVER.

#[global] Instance AsynchronousEventState_eq_dec : EqDecision AsynchronousEventState.
Proof. solve_decision. Defined.

(** The two member functions of [nvidia::gxf::AsynchronousSchedulingTerm]
    that the condition calls.  The term belongs to the external engine, so
    its state [T] and what the calls do to it stay abstract. *)
Class SchedulingTerm (T : Type) : Type := {
  setEventState : T -> AsynchronousEventState -> T;
  getEventState : T -> AsynchronousEventState;
}.

(** The contract the design states for the term: a write is visible to the
    next read. *)
Class VisibleWrites (T : Type) {term : SchedulingTerm T} : Prop :=
  get_after_set : forall (t : T) (s : AsynchronousEventState),
    getEventState (setEventState t s) = s.

(** The simplest term honouring that contract: one cell holding the state. *)
Definition cell_term : SchedulingTerm AsynchronousEventState :=
  {| setEventState := fun _ s => s; getEventState := fun t => t |}.


(** [gxf_cptr_] is a [void*]: an address, [0] for [nullptr].  [event_state_]
    is the condition's own copy of the state. *)
Record AsynchronousCondition : Type := {
  gxf_cptr_ : N;
  event_state_ : AsynchronousEventState;
}.

Definition nullptr : N := 0%N.

Section Condition.
Context {T : Type} {term : SchedulingTerm T}.

(** [void AsynchronousCondition::event_state(AsynchronousEventState state)].
    [mem] is the engine's memory: the scheduling terms alive, by address.
    [None] stands for dereferencing a handle that points at no live term,
    which C++ leaves undefined. *)
Definition event_state_set (state : AsynchronousEventState)
    (mem : gmap N T) (c : AsynchronousCondition)
    : option (gmap N T * AsynchronousCondition) :=
  if decide (gxf_cptr_ c <> nullptr) then
    match mem !! gxf_cptr_ c with
    | Some asynchronous_scheduling_term =>
        Some (<[gxf_cptr_ c := setEventState asynchronous_scheduling_term state]> mem,
              {| gxf_cptr_ := gxf_cptr_ c; event_state_ := state |})
    | None => None
    end
  else
    Some (mem, {| gxf_cptr_ := gxf_cptr_ c; event_state_ := state |}).

(** [AsynchronousEventState AsynchronousCondition::event_state() const]. *)
Definition event_state_get (mem : gmap N T) (c : AsynchronousCondition)
    : option AsynchronousEventState :=
  if decide (gxf_cptr_ c <> nullptr) then
    match mem !! gxf_cptr_ c with
    | Some asynchronous_scheduling_term =>
        Some (getEventState asynchronous_scheduling_term)
    | None => None
    end
  else
    Some (event_state_ c).

(** The handle is null, or it points at a live term. *)
Definition handle_ok (mem : gmap N T) (c : AsynchronousCondition) : Prop :=
  gxf_cptr_ c = nullptr \/ is_Some (mem !! gxf_cptr_ c).

(** A client that writes the states [ws] in order and reads the state back
    after every write; the result is the list of states it read. *)
Fixpoint write_and_observe (ws : list AsynchronousEventState)
    (mem : gmap N T) (c : AsynchronousCondition)
    : option (list AsynchronousEventState) :=
  match ws with
  | [] => Some []
  | w :: ws' =>
      match event_state_set w mem c with
      | Some (mem', c') =>
          match event_state_get mem' c' with
          | Some seen =>
              match write_and_observe ws' mem' c' with
              | Some rest => Some (seen :: rest)
              | None => None
              end
          | None => None
          end
      | None => None
      end
  end.
End Condition.

(** The transitions the design lists: WAITING to DONE, DONE to WAITING, and
    any state to NEVER. *)
Definition listed_transition (from to : AsynchronousEventState) : bool :=
  match from, to with
  | EVENT_WAITING, EVENT_DONE => true
  | EVENT_DONE, EVENT_WAITING => true
  | _, EVENT_NEVER => true
  | _, _ => false
  end.

(** A run of observed states changes only along listed transitions: each
    state is the one before it, or is reached from it by a listed
    transition. *)
Fixpoint changes_as_listed (seen : list AsynchronousEventState) : bool :=
  match seen with
  | from :: (to :: _) as rest =>
      (bool_decide (from = to) || listed_transition from to) && changes_as_listed rest
  | _ => true
  end.

End Asynchronous.

(** ** Python objects seen by the [_gxf] module *)

(** The Python values the bindings tell apart: [None], an instance of
    [PyTensor] (the C++ tensor it holds and its Python attributes), and any
    other object, of which only the type name is kept. *)
Inductive py_object (Tensor PyAttrs : Type) : Type :=
  | py_none
  | py_tensor (tensor : Tensor) (attrs : PyAttrs)
  | py_other (type_name : string).
Arguments py_none {Tensor PyAttrs}.
Arguments py_tensor {Tensor PyAttrs} tensor attrs.
Arguments py_other {Tensor PyAttrs} type_name.

(** [py::isinstance<PyTensor>(value)]. *)
Definition isinstance_PyTensor {Tensor PyAttrs : Type}
    (value : py_object Tensor PyAttrs) : bool :=
  match value with py_tensor _ _ => true | _ => false end.

(** [py::cast<std::shared_ptr<PyTensor>>(value)]: the C++ tensor held by the
    object; the cast throws on any other object. *)
Definition cast_PyTensor {Tensor PyAttrs : Type}
    (value : py_object Tensor PyAttrs) : outcome Tensor :=
  match value with
  | py_tensor tensor _ => Returned tensor
  | _ => Raised cast_error
  end.

(** What the tensor code included from [../core/dl_converter.hpp] and the
    tensor headers offers [py_get]: [Tensor::dl_ctx()], the two functions
    that set the array-interface and DLPack attributes of a Python object,
    and the attributes of the Python object that [py::cast] hands out for a
    C++ tensor.  The headers are not among the sources, so these stay
    abstract; the setters receive the object by [const py::object&] and can
    only touch its attributes. *)
Class TensorInterop (Tensor DLCtx PyAttrs : Type) : Type := {
  dl_ctx : Tensor -> DLCtx;
  cast_attrs : Tensor -> PyAttrs;
  set_array_interface : PyAttrs -> DLCtx -> PyAttrs;
  set_dlpack_interface : PyAttrs -> DLCtx -> PyAttrs;
}.

(** ** Entities *)

Module Entity.

(** The typed accessors of [gxf::Entity] that [PyEntity] calls:
    [get<Tensor>(name)], whose result is a null pointer ([None]) or a tensor,
    and [add<Tensor>(tensor, name)].  They are declared in headers that are
    not among the sources. *)
Class EntityOps (Tensor E : Type) : Type := {
  get_Tensor : E -> string -> option Tensor;
  add_Tensor : E -> Tensor -> string -> E;
}.

(** A sub-object of an entity: a tensor, or an object of another type. *)
Inductive component (Tensor : Type) : Type :=
  | tensor_component (t : Tensor)
  | other_component (type_name : string).
Arguments tensor_component {Tensor} t.
Arguments other_component {Tensor} type_name.

(** Modelled from the spec: [gxf::Entity] and its accessors are missing from
    the sources.  The design describes an entity as a name-keyed set of typed
    sub-objects; [get(name)] returns the named sub-object or an empty result
    if absent, and [add(object, name)] inserts the object under the name and
    overwrites a prior binding. *)
#[global] Instance named_entity (Tensor : Type)
    : EntityOps Tensor (gmap string (component Tensor)) :=
  {| get_Tensor := fun e name =>
       match e !! name with
       | Some (tensor_component t) => Some t
       | _ => None
       end;
     add_Tensor := fun e t name => <[name := tensor_component t]> e |}.

Section PyEntity.
Context {Tensor DLCtx PyAttrs E : Type}.
Context {interop : TensorInterop Tensor DLCtx PyAttrs} {ops : EntityOps Tensor E}.

(** [py::object PyEntity::py_get(const char* name) const]. *)
Definition py_get (self : E) (name : string) : outcome (py_object Tensor PyAttrs) :=
  match get_Tensor self name with
  | None => Returned py_none
  | Some tensor =>
      let py_tensor0 := cast_attrs tensor in
      let py_tensor1 := set_array_interface py_tensor0 (dl_ctx tensor) in
      let py_tensor2 := set_dlpack_interface py_tensor1 (dl_ctx tensor) in
      Returned (py_tensor tensor py_tensor2)
  end.

(** [py::object PyEntity::py_add(const py::object& value, const char* name)];
    the entity is updated in place, so the call yields the entity afterwards
    together with the returned object. *)
Definition py_add (self : E) (value : py_object Tensor PyAttrs) (name : string)
    : outcome (E * py_object Tensor PyAttrs) :=
  if isinstance_PyTensor value then
    match cast_PyTensor value with
    | Returned tensor => Returned (add_Tensor self tensor name, value)
    | Raised e => Raised e
    end
  else Returned (self, py_none).

(** The keyword defaults of the bindings: [name = ""] for both. *)
Definition Entity_get (self : E) (name : option string) : outcome (py_object Tensor PyAttrs) :=
  py_get self (default EmptyString name).

Definition Entity_add (self : E) (obj : py_object Tensor PyAttrs) (name : option string)
    : outcome (E * py_object Tensor PyAttrs) :=
  py_add self obj (default EmptyString name).
End PyEntity.

End Entity.

(** ** Input and output contexts *)

Module IOContext.

(** Modelled from the spec: [InputContext] and [OutputContext] are declared
    in headers that are not among the sources.  The design gives every named
    port a queue of messages: an input context holds what is queued for the
    operator, an output context what was handed over for delivery. *)
Record InputContext (M : Type) : Type := { queued : gmap string (list M) }.
Arguments queued {M} _.

Record OutputContext (M : Type) : Type := { emitted : gmap string (list M) }.
Arguments emitted {M} _.

(** The messages waiting on, or handed to, a port. *)
Definition waiting {M : Type} (ctx : InputContext M) (name : string) : list M :=
  default [] (queued ctx !! name).

Definition delivered {M : Type} (ctx : OutputContext M) (name : string) : list M :=
  default [] (emitted ctx !! name).

Section Bindings.
Context {Tensor PyAttrs : Type}.

(** The method bound as [GXFInputContext.receive]:
    [[](const InputContext&, const std::string&) { return py::none(); }].
    The context is taken by const reference and comes back as it was. *)
Definition receive (ctx : InputContext (py_object Tensor PyAttrs)) (name : string)
    : outcome (InputContext (py_object Tensor PyAttrs) * py_object Tensor PyAttrs) :=
  Returned (ctx, py_none).

(** The method bound as [GXFOutputContext.emit]:
    [[](const OutputContext&, py::object&, const std::string&) {}]; a [void]
    function returns [None] to Python.  [name] defaults to the empty
    string. *)
Definition emit (ctx : OutputContext (py_object Tensor PyAttrs))
    (data : py_object Tensor PyAttrs) (name : option string)
    : outcome (OutputContext (py_object Tensor PyAttrs) * py_object Tensor PyAttrs) :=
  Returned (ctx, py_none).

(** What the design says of [receive]: the next queued message of the port,
    taken off its queue, or an empty result when none is waiting. *)
Definition receive_as_specified (ctx : InputContext (py_object Tensor PyAttrs))
    (name : string)
    : outcome (InputContext (py_object Tensor PyAttrs) * py_object Tensor PyAttrs) :=
  match waiting ctx name with
  | [] => Returned (ctx, py_none)
  | m :: rest => Returned ({| queued := <[name := rest]> (queued ctx) |}, m)
  end.

(** What the design says of [emit]: the value is handed to the named port. *)
Definition emit_as_specified (ctx : OutputContext (py_object Tensor PyAttrs))
    (data : py_object Tensor PyAttrs) (name : option string)
    : outcome (OutputContext (py_object Tensor PyAttrs) * py_object Tensor PyAttrs) :=
  let port := default EmptyString name in
  Returned ({| emitted := <[port := (delivered ctx port ++ [data])%list]> (emitted ctx) |},
            py_none).
End Bindings.

End IOContext.

(** ** Loading extensions *)

Module Extensions.

(** [gxf_result_t] is a C enumeration; the source notes that [GXF_SUCCESS]
    is [0]. *)
Definition gxf_result_t : Type := Z.
Definition GXF_SUCCESS : gxf_result_t := 0%Z.

(** [GxfLoadExtensionsInfo], in the order the source initialises it: an array
    of C strings ([None] for [nullptr]) with its [uint32_t] length, twice,
    and the base directory. *)
Record GxfLoadExtensionsInfo : Type := {
  extension_filenames : option (list string);
  extension_filenames_count : Z;
  manifest_filenames : option (list string);
  manifest_filenames_count : Z;
  base_directory : string;
}.

(** The two entry points of the external engine that [load_extensions]
    calls.  [GxfLoadExtensions] acts on the engine, whose state is [Engine],
    and reports a result code; [GxfResultStr] names a result code. *)
Class GxfCore (Engine : Type) : Type := {
  GxfLoadExtensions : Z -> GxfLoadExtensionsInfo -> Engine -> gxf_result_t * Engine;
  GxfResultStr : gxf_result_t -> string;
}.

(** [std::string::c_str()] read as a C string: the characters before the
    first NUL. *)
Fixpoint c_str (s : string) : string :=
  match s with
  | EmptyString => EmptyString
  | String c rest => if Ascii.eqb c Ascii.zero then EmptyString else String c (c_str rest)
  end.

(** [static_cast<uint32_t>(v.size())]. *)
Definition size_uint32 {A : Type} (v : list A) : Z :=
  (Z.of_nat (List.length v) mod 2 ^ 32)%Z.

(** [v.empty() ? nullptr : v.data()]. *)
Definition data_or_nullptr {A : Type} (v : list A) : option (list A) :=
  match v with [] => None | _ => Some v end.

(** The [info] that [load_extensions] builds from its arguments. *)
Definition load_extensions_info (extension_filenames manifest_filenames : list string)
    (base_directory : string) : GxfLoadExtensionsInfo :=
  let extension_filenames_cstr := List.map c_str extension_filenames in
  let manifest_filenames_cstr := List.map c_str manifest_filenames in
  {| extension_filenames := data_or_nullptr extension_filenames_cstr;
     extension_filenames_count := size_uint32 extension_filenames_cstr;
     manifest_filenames := data_or_nullptr manifest_filenames_cstr;
     manifest_filenames_count := size_uint32 manifest_filenames_cstr;
     base_directory := c_str base_directory |}.

Section Load.
Context {Engine : Type} {gxf : GxfCore Engine}.

(** The function bound as [load_extensions].  [context] is the [uint64_t]
    reinterpreted as a [gxf_context_t]; a lambda without a [return] gives
    [None] to Python, here [tt]. *)
Definition load_extensions (context : Z)
    (extension_filenames manifest_filenames : list string) (base_directory : string)
    (engine : Engine) : outcome unit * Engine :=
  let info := load_extensions_info extension_filenames manifest_filenames base_directory in
  let '(result, engine') := GxfLoadExtensions context info engine in
  if decide (result <> GXF_SUCCESS)
  then (Raised (value_error (GxfResultStr result)), engine')
  else (Returned tt, engine').
End Load.

End Extensions.

(** ** The extension registrar *)

Module Registrar.

(** [gxf_tid_t]: two 64-bit words. *)
Record gxf_tid_t : Type := { hash1 : Z; hash2 : Z }.

#[global] Instance gxf_tid_t_eq_dec : EqDecision gxf_tid_t.
Proof. solve_decision. Defined.

(** [static const gxf_tid_t default_tid = {0, 0};] *)
Definition default_tid : gxf_tid_t := {| hash1 := 0; hash2 := 0 |}.

(** [GXFExtensionRegistrar::TypeKind], as the module exports it. *)
Inductive TypeKind : Type := kExtension | kComponent.

#[global] Instance TypeKind_eq_dec : EqDecision TypeKind.
Proof. solve_decision. Defined.

(** Modelled from the spec: [GXFExtensionRegistrar] lives in
    [gxf_extension_registrar.hpp], which is not among the sources.  The
    design's registration record is a type id, a kind and a description. *)
Record type_record : Type := {
  type_id : gxf_tid_t;
  kind : TypeKind;
  description : string;
}.

(** Modelled from the spec: the registrar's session, the records made so far.
    [entropy] is the part of the random source a call may consume; each
    rejected draw is used up. *)
Record GXFExtensionRegistrar : Type := {
  type_table : list type_record;
  entropy : list gxf_tid_t;
}.

(** Modelled from the spec: [is_allocated(tid, kind)] is a pure query. *)
Definition is_allocated (tid : gxf_tid_t) (k : TypeKind) (r : GXFExtensionRegistrar) : bool :=
  existsb (fun rec => bool_decide (type_id rec = tid) && bool_decide (kind rec = k))
          (type_table r).

(** The id is in the session's table under some kind. *)
Definition collides (tid : gxf_tid_t) (table : list type_record) : bool :=
  existsb (fun rec => bool_decide (type_id rec = tid)) table.

(** A draw the registrar may hand out: not the reserved id, and no
    collision. *)
Definition acceptable (table : list type_record) (tid : gxf_tid_t) : bool :=
  negb (bool_decide (tid = default_tid)) && negb (collides tid table).

(** Drawing from the random source until a draw is acceptable; [None] when
    the source runs out first. *)
Fixpoint draw_tid (table : list type_record) (source : list gxf_tid_t)
    : option (gxf_tid_t * list gxf_tid_t) :=
  match source with
  | [] => None
  | tid :: rest => if acceptable table tid then Some (tid, rest) else draw_tid table rest
  end.

(** Modelled from the spec: [create_random_tid()] yields a type id that does
    not collide within the registrar's session, and rejects the reserved
    all-zero id. *)
Definition create_random_tid (r : GXFExtensionRegistrar)
    : option (gxf_tid_t * GXFExtensionRegistrar) :=
  match draw_tid (type_table r) (entropy r) with
  | Some (tid, rest) => Some (tid, {| type_table := type_table r; entropy := rest |})
  | None => None
  end.

(** What a registration call comes to. *)
Inductive registration : Type :=
  | Registered (tid : gxf_tid_t) (r : GXFExtensionRegistrar)
  | Rejected
  | Exhausted.

Definition record_type (tid : gxf_tid_t) (k : TypeKind) (desc : string)
    (r : GXFExtensionRegistrar) : GXFExtensionRegistrar :=
  {| type_table := type_table r ++ [{| type_id := tid; kind := k; description := desc |}];
     entropy := entropy r |}.

(** Modelled from the spec: [add_component] and [add_type] bind a type to a
    (description, tid) pair; if [tid] is the reserved default a fresh one is
    generated, and a supplied id that collides is rejected at the call. *)
Definition bind_type (desc : string) (tid : gxf_tid_t) (r : GXFExtensionRegistrar)
    : registration :=
  if decide (tid = default_tid) then
    match create_random_tid r with
    | Some (fresh, r') => Registered fresh (record_type fresh kComponent desc r')
    | None => Exhausted
    end
  else if collides tid (type_table r) then Rejected
  else Registered tid (record_type tid kComponent desc r).

Definition add_component : string -> gxf_tid_t -> GXFExtensionRegistrar -> registration :=
  bind_type.

Definition add_type : string -> gxf_tid_t -> GXFExtensionRegistrar -> registration :=
  bind_type.

(** The methods bound as [GXFExtensionRegistrar.add_component] and
    [GXFExtensionRegistrar.add_type], with their keyword defaults
    [description = ""] and [tid = default_tid]. *)
Definition py_add_component (description : option string) (tid : option gxf_tid_t)
    (self : GXFExtensionRegistrar) : registration :=
  add_component (default EmptyString description) (default default_tid tid) self.

Definition py_add_type (description : option string) (tid : option gxf_tid_t)
    (self : GXFExtensionRegistrar) : registration :=
  add_type (default EmptyString description) (default default_tid tid) self.

End Registrar.

(** ** The parameter maps of [MultiAIPostprocessorOp] *)

(** [MultiAIPostprocessorOp::DataMap]: a [std::map] from strings to
    strings. *)
Module DataMap.

Record t : Type := { mappings_ : gmap string string }.

(** [DataMap() = default]. *)
Definition make : t := {| mappings_ := ∅ |}.

(** [explicit operator bool() const noexcept { return !mappings_.empty(); }] *)
Definition to_bool (d : t) : bool := negb (bool_decide (mappings_ d = ∅)).

(** [void insert(key, value) { mappings_[key] = value; }] *)
Definition insert (key value : string) (d : t) : t :=
  {| mappings_ := <[key := value]> (mappings_ d) |}.

(** [get_map() const { return mappings_; }] *)
Definition get_map (d : t) : gmap string string := mappings_ d.

(** A run of [insert] calls, first pair first. *)
Definition insert_all (kvs : list (string * string)) (d : t) : t :=
  fold_left (fun acc kv => insert kv.1 kv.2 acc) kvs d.

End DataMap.

(** [MultiAIPostprocessorOp::DataVecMap]: a [std::map] from strings to
    vectors of strings. *)
Module DataVecMap.

Record t : Type := { mappings_ : gmap string (list string) }.

(** [DataVecMap() = default]. *)
Definition make : t := {| mappings_ := ∅ |}.

(** [explicit operator bool() const noexcept { return !mappings_.empty(); }] *)
Definition to_bool (d : t) : bool := negb (bool_decide (mappings_ d = ∅)).

(** [mappings_[key].push_back(val)]: [operator[]] makes an empty vector for
    a key that is not there yet. *)
Definition push_back (key : string) (m : gmap string (list string)) (val : string)
    : gmap string (list string) :=
  <[key := (default [] (m !! key) ++ [val])%list]> m.

(** [void insert(key, value) { for (const auto& val : value)
    mappings_[key].push_back(val); }] *)
Definition insert (key : string) (value : list string) (d : t) : t :=
  {| mappings_ := fold_left (push_back key) value (mappings_ d) |}.

(** [get_map() const { return mappings_; }] *)
Definition get_map (d : t) : gmap string (list string) := mappings_ d.

(** The vector stored under a key, empty when the key is absent. *)
Definition values_of (key : string) (d : t) : list string :=
  default [] (mappings_ d !! key).

End DataVecMap.

(** ** Paths without a NUL character *)

(** The string holds no NUL character, so reading it as a C string loses
    nothing. *)
Fixpoint nul_free (s : string) : bool :=
  match s with
  | EmptyString => true
  | String c rest => negb (Ascii.eqb c Ascii.zero) && nul_free rest
  end.

(** ** Stand-ins for the external parts, used to run the model on examples *)

Module Demo.

(** Tensors are numbered; a Python tensor object carries the names of the
    attributes set on it. *)
Definition demo_interop : TensorInterop nat nat (list string) :=
  {| dl_ctx := fun t => t;
     cast_attrs := fun _ => [];
     set_array_interface := fun attrs _ => ("__array_interface__"%string :: attrs);
     set_dlpack_interface := fun attrs _ => ("__dlpack__"%string :: attrs) |}.

(** An engine that remembers the extension files it was given, refuses a
    null context with result code [4], and names result codes in a fixed
    way. *)
Definition demo_gxf : Extensions.GxfCore (list string) :=
  {| Extensions.GxfLoadExtensions := fun context info loaded =>
       if decide (context = 0%Z) then (4%Z, loaded)
       else (Extensions.GXF_SUCCESS,
             (loaded ++ default [] (Extensions.extension_filenames info))%list);
     Extensions.GxfResultStr := fun result =>
       if decide (result = Extensions.GXF_SUCCESS) then "GXF_SUCCESS"%string
       else "GXF_FAILURE"%string |}.

End Demo.

(* ===================================================================== *)
(** * Part II. Properties                                                 *)
(* ===================================================================== *)

(** ** The asynchronous condition *)

Section AsynchronousFacts.
Import Asynchronous.
Context {T : Type} {term : SchedulingTerm T}.

Lemma event_state_set_null (s : AsynchronousEventState) (mem : gmap N T)
    (c : AsynchronousCondition) :
  gxf_cptr_ c = nullptr ->
  event_state_set s mem c = Some (mem, {| gxf_cptr_ := nullptr; event_state_ := s |}).
Proof.
  intros Hnull. unfold event_state_set.
  rewrite Hnull. case_decide; [congruence | reflexivity].
Qed.

Lemma event_state_get_null (mem : gmap N T) (c : AsynchronousCondition) :
  gxf_cptr_ c = nullptr -> event_state_get mem c = Some (event_state_ c).
Proof.
  intros Hnull. unfold event_state_get.
  case_decide; [congruence | reflexivity].
Qed.

Lemma event_state_set_live (s : AsynchronousEventState) (mem : gmap N T)
    (c : AsynchronousCondition) (t : T) :
  gxf_cptr_ c <> nullptr -> mem !! gxf_cptr_ c = Some t ->
  event_state_set s mem c =
    Some (<[gxf_cptr_ c := setEventState t s]> mem,
          {| gxf_cptr_ := gxf_cptr_ c; event_state_ := s |}).
Proof.
  intros Hp Ht. unfold event_state_set.
  case_decide; [| contradiction]. rewrite Ht. reflexivity.
Qed.

Lemma event_state_get_live (mem : gmap N T) (c : AsynchronousCondition) (t : T) :
  gxf_cptr_ c <> nullptr -> mem !! gxf_cptr_ c = Some t ->
  event_state_get mem c = Some (getEventState t).
Proof.
  intros Hp Ht. unfold event_state_get.
  case_decide; [| contradiction]. rewrite Ht. reflexivity.
Qed.

(** One write on a usable handle: it goes through, the local field holds the
    written state, the handle is the same and still usable, and the state
    read back is what the term reports for the forwarded write, or the
    local field when there is no term. *)
Lemma event_state_set_step (s : AsynchronousEventState) (mem : gmap N T)
    (c : AsynchronousCondition) :
  handle_ok mem c ->
  exists mem' c',
    event_state_set s mem c = Some (mem', c') /\
    event_state_ c' = s /\
    gxf_cptr_ c' = gxf_cptr_ c /\
    handle_ok mem' c' /\
    (gxf_cptr_ c = nullptr -> mem' = mem /\ event_state_get mem' c' = Some s) /\
    (forall t, gxf_cptr_ c <> nullptr -> mem !! gxf_cptr_ c = Some t ->
       event_state_get mem' c' = Some (getEventState (setEventState t s))).
Proof.
  intros Hok.
  destruct (decide (gxf_cptr_ c = nullptr)) as [Hnull | Hp].
  - exists mem, {| gxf_cptr_ := nullptr; event_state_ := s |}.
    rewrite (event_state_set_null s mem c Hnull).
    split; [reflexivity |]. split; [reflexivity |].
    split; [simpl; congruence |].
    split; [left; reflexivity |].
    split.
    + intros _. split; [reflexivity |].
      apply event_state_get_null. reflexivity.
    + intros t Hp. contradiction.
  - destruct Hok as [Hnull | [t Ht]]; [contradiction |].
    exists (<[gxf_cptr_ c := setEventState t s]> mem),
           {| gxf_cptr_ := gxf_cptr_ c; event_state_ := s |}.
    rewrite (event_state_set_live s mem c t Hp Ht).
    split; [reflexivity |]. split; [reflexivity |]. split; [reflexivity |].
    split; [right; simpl; rewrite lookup_insert_eq; eauto |].
    split.
    + intros Hnull. contradiction.
    + intros t' _ Ht'. assert (t' = t) as -> by congruence.
      apply event_state_get_live; simpl; [assumption |].
      apply lookup_insert_eq.
Qed.

(** C1: on a condition whose scheduling-term handle is null, writing the
    event state succeeds and only fills the local field (the engine's terms
    are left exactly as they were, nothing is forwarded), and reading
    succeeds and returns the local field, before the write and after it. *)
Theorem unbound_event_state_is_local (s : AsynchronousEventState)
    (mem : gmap N T) (c : AsynchronousCondition) :
  gxf_cptr_ c = nullptr ->
  event_state_get mem c = Some (event_state_ c) /\
  exists c',
    event_state_set s mem c = Some (mem, c') /\
    gxf_cptr_ c' = nullptr /\
    event_state_ c' = s /\
    event_state_get mem c' = Some (event_state_ c').
Proof.
  intros Hnull. split.
  - apply event_state_get_null, Hnull.
  - exists {| gxf_cptr_ := nullptr; event_state_ := s |}.
    split; [apply event_state_set_null, Hnull |].
    split; [reflexivity |]. split; [reflexivity |].
    apply event_state_get_null. reflexivity.
Qed.

(** C9: writing a state and then reading gives that state back, on a null
    handle and on a handle to a live term alike; the local field is updated
    in both cases.  On a bound handle the value read is the one the term
    reports, so this rests on the term making a write visible to the next
    read. *)
Theorem set_then_get_roundtrip {visible : VisibleWrites T}
    (s : AsynchronousEventState) (mem : gmap N T) (c : AsynchronousCondition) :
  handle_ok mem c ->
  exists mem' c',
    event_state_set s mem c = Some (mem', c') /\
    event_state_ c' = s /\
    event_state_get mem' c' = Some s.
Proof.
  intros Hok.
  destruct (event_state_set_step s mem c Hok)
    as (mem' & c' & Hset & Hfield & _ & _ & Hnull & Hlive).
  exists mem', c'. repeat split; try assumption.
  destruct Hok as [Hp | [t Ht]].
  - apply Hnull, Hp.
  - destruct (decide (gxf_cptr_ c = nullptr)) as [Hp | Hp].
    + apply Hnull, Hp.
    + rewrite (Hlive t Hp Ht). f_equal. apply get_after_set.
Qed.

(** C8, as the code has it: the setter checks no transition.  Whatever
    states are written, in whatever order, every write goes through and the
    state read after it is the state just written, a write of [EVENT_DONE]
    or [EVENT_WAITING] after [EVENT_NEVER] included. *)
Theorem every_write_is_observed {visible : VisibleWrites T}
    (ws : list AsynchronousEventState) (mem : gmap N T) (c : AsynchronousCondition) :
  handle_ok mem c -> write_and_observe ws mem c = Some ws.
Proof.
  revert mem c. induction ws as [| w ws IH]; intros mem c Hok; [reflexivity |].
  destruct (event_state_set_step w mem c Hok)
    as (mem' & c' & Hset & _ & _ & Hok' & Hnull & Hlive).
  assert (event_state_get mem' c' = Some w) as Hget.
  { destruct (decide (gxf_cptr_ c = nullptr)) as [Hp | Hp].
    - apply Hnull, Hp.
    - destruct Hok as [Hp' | [t Ht]]; [contradiction |].
      rewrite (Hlive t Hp Ht). f_equal. apply get_after_set. }
  simpl. rewrite Hset, Hget, (IH mem' c' Hok'). reflexivity.
Qed.
End AsynchronousFacts.

(** The cell term makes every write visible to the next read. *)
Lemma cell_term_visible :
  @Asynchronous.VisibleWrites Asynchronous.AsynchronousEventState Asynchronous.cell_term.
Proof. intros t s. reflexivity. Qed.

Section AsynchronousExamples.
Import Asynchronous.

(** An unbound condition next to an engine that holds one live term at
    address 7: a write of [EVENT_DONE] changes the local field only. *)
Lemma unbound_event_state_is_local_witness :
  gxf_cptr_ {| gxf_cptr_ := 0; event_state_ := EVENT_WAITING |} = nullptr /\
  (event_state_get (term := cell_term) {[ 7%N := EVENT_WAITING ]}
     {| gxf_cptr_ := 0; event_state_ := EVENT_WAITING |} = Some EVENT_WAITING /\
   exists c',
     event_state_set (term := cell_term) EVENT_DONE {[ 7%N := EVENT_WAITING ]}
       {| gxf_cptr_ := 0; event_state_ := EVENT_WAITING |}
       = Some ({[ 7%N := EVENT_WAITING ]}, c') /\
     gxf_cptr_ c' = nullptr /\
     event_state_ c' = EVENT_DONE /\
     event_state_get (term := cell_term) {[ 7%N := EVENT_WAITING ]} c'
       = Some (event_state_ c')).
Proof.
  split; [reflexivity |].
  apply (@unbound_event_state_is_local _ cell_term EVENT_DONE
           {[ 7%N := EVENT_WAITING ]}
           {| gxf_cptr_ := 0; event_state_ := EVENT_WAITING |}).
  reflexivity.
Defined.

(** A condition bound to the live cell term at address 7. *)
Lemma set_then_get_roundtrip_witness :
  handle_ok (T := AsynchronousEventState) {[ 7%N := EVENT_WAITING ]}
    {| gxf_cptr_ := 7; event_state_ := EVENT_WAITING |} /\
  exists mem' c',
    event_state_set (term := cell_term) EVENT_DONE {[ 7%N := EVENT_WAITING ]}
      {| gxf_cptr_ := 7; event_state_ := EVENT_WAITING |} = Some (mem', c') /\
    event_state_ c' = EVENT_DONE /\
    event_state_get (term := cell_term) mem' c' = Some EVENT_DONE.
Proof.
  assert (handle_ok (T := AsynchronousEventState) {[ 7%N := EVENT_WAITING ]}
            {| gxf_cptr_ := 7; event_state_ := EVENT_WAITING |}) as Hok.
  { right. exists EVENT_WAITING. vm_compute. reflexivity. }
  split; [exact Hok |].
  exact (@set_then_get_roundtrip _ cell_term cell_term_visible EVENT_DONE
           {[ 7%N := EVENT_WAITING ]}
           {| gxf_cptr_ := 7; event_state_ := EVENT_WAITING |} Hok).
Defined.

(** C8, the claim as stated fails: on an unbound condition the writes
    [EVENT_NEVER] then [EVENT_DONE] are both accepted and both observed, and
    the change from [EVENT_NEVER] to [EVENT_DONE] is not a listed
    transition. *)
Lemma never_then_done_is_observed :
  write_and_observe (term := cell_term) [EVENT_NEVER; EVENT_DONE] ∅
    {| gxf_cptr_ := nullptr; event_state_ := EVENT_WAITING |}
    = Some [EVENT_NEVER; EVENT_DONE] /\
  listed_transition EVENT_NEVER EVENT_DONE = false /\
  changes_as_listed [EVENT_WAITING; EVENT_NEVER; EVENT_DONE] = false.
Proof. repeat split. Qed.

(** Three writes through a bound handle, the last two leaving
    [EVENT_NEVER]. *)
Lemma every_write_is_observed_witness :
  handle_ok (T := AsynchronousEventState) {[ 7%N := EVENT_WAITING ]}
    {| gxf_cptr_ := 7; event_state_ := EVENT_WAITING |} /\
  write_and_observe (term := cell_term) [EVENT_NEVER; EVENT_DONE; EVENT_WAITING]
    {[ 7%N := EVENT_WAITING ]} {| gxf_cptr_ := 7; event_state_ := EVENT_WAITING |}
    = Some [EVENT_NEVER; EVENT_DONE; EVENT_WAITING].
Proof.
  assert (handle_ok (T := AsynchronousEventState) {[ 7%N := EVENT_WAITING ]}
            {| gxf_cptr_ := 7; event_state_ := EVENT_WAITING |}) as Hok.
  { right. exists EVENT_WAITING. vm_compute. reflexivity. }
  split; [exact Hok |].
  exact (@every_write_is_observed _ cell_term cell_term_visible
           [EVENT_NEVER; EVENT_DONE; EVENT_WAITING]
           {[ 7%N := EVENT_WAITING ]}
           {| gxf_cptr_ := 7; event_state_ := EVENT_WAITING |} Hok).
Defined.
End AsynchronousExamples.

(** ** Entities at the Python interface *)

Section PyEntityFacts.
Import Entity.
Context {Tensor DLCtx PyAttrs : Type} {interop : TensorInterop Tensor DLCtx PyAttrs}.

(** [py_add] never lets the cast throw: it is guarded by the instance
    test. *)
Lemma cast_after_isinstance (value : py_object Tensor PyAttrs) :
  isinstance_PyTensor value = true ->
  exists tensor attrs, value = py_tensor tensor attrs /\ cast_PyTensor value = Returned tensor.
Proof.
  destruct value as [| tensor attrs | ty]; simpl; intros Hinst; try discriminate.
  exists tensor, attrs. split; reflexivity.
Qed.

Section AnyEntity.
Context {E : Type} {ops : EntityOps Tensor E}.

Lemma py_add_tensor (self : E) (tensor : Tensor) (attrs : PyAttrs) (name : string) :
  py_add self (py_tensor tensor attrs) name
    = Returned (add_Tensor self tensor name, py_tensor tensor attrs).
Proof. reflexivity. Qed.

Lemma py_add_not_tensor (self : E) (value : py_object Tensor PyAttrs) (name : string) :
  isinstance_PyTensor value = false -> py_add self value name = Returned (self, py_none).
Proof. intros Hinst. unfold py_add. rewrite Hinst. reflexivity. Qed.

Lemma py_get_found (self : E) (name : string) (tensor : Tensor) :
  get_Tensor self name = Some tensor ->
  py_get self name =
    Returned (py_tensor tensor
                (set_dlpack_interface
                   (set_array_interface (cast_attrs tensor) (dl_ctx tensor))
                   (dl_ctx tensor))).
Proof. intros Hget. unfold py_get. rewrite Hget. reflexivity. Qed.

Lemma py_get_not_found (self : E) (name : string) :
  get_Tensor self name = None -> py_get self name = Returned py_none.
Proof. intros Hget. unfold py_get. rewrite Hget. reflexivity. Qed.

(** C10: at the Python interface [add] inserts tensors only.  Given [None]
    or an object of any other type it leaves the entity as it was and
    returns [None]; given a tensor object it passes the tensor to the
    entity's [add<Tensor>] and returns the argument itself.  [get] never
    raises and yields either [None] or a tensor object, the one holding the
    tensor that [get<Tensor>] found. *)
Theorem add_and_get_handle_tensors_only (self : E) (name : string) :
  py_add (PyAttrs := PyAttrs) self py_none name = Returned (self, py_none) /\
  (forall ty,
     py_add (PyAttrs := PyAttrs) self (py_other ty) name = Returned (self, py_none)) /\
  (forall (tensor : Tensor) (attrs : PyAttrs),
     py_add self (py_tensor tensor attrs) name
       = Returned (add_Tensor self tensor name, py_tensor tensor attrs)) /\
  (py_get self name = Returned py_none \/
   exists (tensor : Tensor) (attrs : PyAttrs),
     get_Tensor self name = Some tensor /\
     py_get self name = Returned (py_tensor tensor attrs)).
Proof.
  split; [reflexivity |]. split; [reflexivity |]. split; [reflexivity |].
  destruct (get_Tensor self name) as [tensor |] eqn:Hget.
  - right. eexists tensor, _. split; [reflexivity |]. apply py_get_found, Hget.
  - left. apply py_get_not_found, Hget.
Qed.
End AnyEntity.

(** The entity of the design: names bound to typed sub-objects. *)

Lemma get_Tensor_unbound (e : gmap string (component Tensor)) (name : string) :
  e !! name = None -> get_Tensor e name = None.
Proof. intros Hname. simpl. rewrite Hname. reflexivity. Qed.

Lemma get_Tensor_after_add (e : gmap string (component Tensor)) (t : Tensor)
    (name : string) :
  get_Tensor (add_Tensor e t name) name = Some t.
Proof. simpl. rewrite lookup_insert_eq. reflexivity. Qed.

Lemma add_Tensor_overwrites (e : gmap string (component Tensor)) (t1 t2 : Tensor)
    (name : string) :
  add_Tensor (add_Tensor e t1 name) t2 name = add_Tensor e t2 name.
Proof. simpl. apply insert_insert_eq. Qed.

(** C2: [get(name)] with a name that is not bound in the entity returns
    [None] to Python and does not raise, through [py_get] and through the
    bound method with its default name alike. *)
Theorem get_of_unbound_name_is_none (e : gmap string (component Tensor))
    (name : string) :
  e !! name = None ->
  py_get e name = Returned py_none /\
  Entity_get e (Some name) = Returned py_none /\
  raises (py_get e name) = false.
Proof.
  intros Hname.
  assert (py_get e name = Returned py_none) as Hnone
    by (apply py_get_not_found, get_Tensor_unbound, Hname).
  split; [exact Hnone |]. split; [exact Hnone |].
  rewrite Hnone. reflexivity.
Qed.

(** C3: adding a tensor object under a name returns that object, and a [get]
    with the same name straight after returns the tensor object holding the
    tensor just added, with the array-interface and DLPack attributes set
    from the tensor's context.  What the name was bound to before does not
    matter: a second [add] under the same name leaves the entity as if only
    the second had been made, and [get] returns the second tensor. *)
Theorem add_then_get_returns_added (e : gmap string (component Tensor))
    (t1 t2 : Tensor) (a1 a2 : PyAttrs) (name : string) :
  let exposed (t : Tensor) :=
    py_tensor t (set_dlpack_interface (set_array_interface (cast_attrs t) (dl_ctx t))
                                      (dl_ctx t)) in
  py_add e (py_tensor t1 a1) name = Returned (add_Tensor e t1 name, py_tensor t1 a1) /\
  py_get (add_Tensor e t1 name) name = Returned (exposed t1) /\
  py_add (add_Tensor e t1 name) (py_tensor t2 a2) name
    = Returned (add_Tensor e t2 name, py_tensor t2 a2) /\
  py_get (add_Tensor e t2 name) name = Returned (exposed t2).
Proof.
  intros exposed.
  split; [apply py_add_tensor |].
  split; [apply py_get_found, get_Tensor_after_add |].
  split.
  - rewrite py_add_tensor, add_Tensor_overwrites. reflexivity.
  - apply py_get_found, get_Tensor_after_add.
Qed.
End PyEntityFacts.

Section PyEntityExamples.
Import Entity.

(** An entity holding tensor 1 under the name image; the name mask is not
    bound. *)
Lemma get_of_unbound_name_is_none_witness :
  ({[ "image"%string := tensor_component 1 ]} : gmap string (component nat))
    !! "mask"%string = None /\
  (py_get (interop := Demo.demo_interop)
     ({[ "image"%string := tensor_component 1 ]} : gmap string (component nat))
     "mask"%string = Returned py_none /\
   Entity_get (interop := Demo.demo_interop)
     ({[ "image"%string := tensor_component 1 ]} : gmap string (component nat))
     (Some "mask"%string) = Returned py_none /\
   raises (py_get (interop := Demo.demo_interop)
     ({[ "image"%string := tensor_component 1 ]} : gmap string (component nat))
     "mask"%string) = false).
Proof.
  assert (({[ "image"%string := tensor_component 1 ]} : gmap string (component nat))
            !! "mask"%string = None) as Hname by (vm_compute; reflexivity).
  split; [exact Hname |].
  exact (@get_of_unbound_name_is_none nat nat (list string) Demo.demo_interop
           {[ "image"%string := tensor_component 1 ]} "mask"%string Hname).
Defined.

(** A name bound to a sub-object that is no tensor reads as [None] too. *)
Example py_get_other_component :
  py_get (interop := Demo.demo_interop)
    ({[ "clock"%string := other_component "Timestamp"%string ]}
       : gmap string (component nat)) "clock"%string = Returned py_none.
Proof. vm_compute. reflexivity. Qed.

(** Adding tensor 2 under a name that held tensor 1, then reading it. *)
Example py_add_then_py_get :
  py_get (interop := Demo.demo_interop)
    (add_Tensor ({[ "image"%string := tensor_component 1 ]}
                   : gmap string (component nat)) 2 "image"%string)
    "image"%string
  = Returned (py_tensor 2 ["__dlpack__"%string; "__array_interface__"%string]).
Proof. vm_compute. reflexivity. Qed.
End PyEntityExamples.

(** ** Input and output contexts *)

Section IOContextFacts.
Import IOContext.
Context {Tensor PyAttrs : Type}.

(** C4, as the code has it: [receive] is one synchronous call that returns
    [None] and leaves the input context as it was, for every context and
    port name, whether or not a message is queued for the port. *)
Theorem receive_returns_none (ctx : InputContext (py_object Tensor PyAttrs))
    (name : string) :
  receive ctx name = Returned (ctx, py_none) /\
  raises (receive ctx name) = false.
Proof. split; reflexivity. Qed.

(** Where nothing is queued for the port, that is what the design asks. *)
Lemma receive_on_empty_port (ctx : InputContext (py_object Tensor PyAttrs))
    (name : string) :
  waiting ctx name = [] -> receive ctx name = receive_as_specified ctx name.
Proof. intros Hempty. unfold receive_as_specified. rewrite Hempty. reflexivity. Qed.

(** C5, as the code has it: [emit] returns [None] at once and leaves the
    output context as it was, so what each port has been handed is
    unchanged, for every context, value and port name. *)
Theorem emit_changes_nothing (ctx : OutputContext (py_object Tensor PyAttrs))
    (data : py_object Tensor PyAttrs) (name : option string) :
  emit ctx data name = Returned (ctx, py_none) /\
  raises (emit ctx data name) = false.
Proof. split; reflexivity. Qed.
End IOContextFacts.

Section IOContextExamples.
Import IOContext.

(** C4, the claim as stated fails: with a message queued on port in,
    [receive] still returns [None], while the design calls for the queued
    message. *)
Lemma receive_ignores_queued_message :
  waiting ({| queued := {[ "in"%string := [py_other "Entity"%string] ]} |}
             : InputContext (py_object nat (list string))) "in"%string
    = [py_other "Entity"%string] /\
  receive ({| queued := {[ "in"%string := [py_other "Entity"%string] ]} |}
             : InputContext (py_object nat (list string))) "in"%string
    = Returned ({| queued := {[ "in"%string := [py_other "Entity"%string] ]} |}, py_none) /\
  receive_as_specified
    ({| queued := {[ "in"%string := [py_other "Entity"%string] ]} |}
       : InputContext (py_object nat (list string))) "in"%string
    = Returned ({| queued := {[ "in"%string := [] ]} |}, py_other "Entity"%string) /\
  receive ({| queued := {[ "in"%string := [py_other "Entity"%string] ]} |}
             : InputContext (py_object nat (list string))) "in"%string
    <> receive_as_specified
         ({| queued := {[ "in"%string := [py_other "Entity"%string] ]} |}
            : InputContext (py_object nat (list string))) "in"%string.
Proof.
  assert (receive_as_specified
            ({| queued := {[ "in"%string := [py_other "Entity"%string] ]} |}
               : InputContext (py_object nat (list string))) "in"%string
          = Returned ({| queued := {[ "in"%string := [] ]} |},
                      py_other "Entity"%string)) as Hspec.
  { unfold receive_as_specified, waiting. simpl.
    rewrite lookup_singleton_eq. simpl. rewrite insert_singleton_eq. reflexivity. }
  split; [vm_compute; reflexivity |]. split; [reflexivity |].
  split; [exact Hspec |].
  rewrite Hspec. unfold receive. intros Heq. inversion Heq.
Qed.

(** C5, the claim as stated fails: after [emit] of a tensor object on port
    out nothing has been handed to that port, while the design calls for the
    value to be there. *)
Lemma emit_delivers_nothing :
  emit ({| emitted := ∅ |} : OutputContext (py_object nat (list string)))
    (py_tensor 1 []) (Some "out"%string)
    = Returned ({| emitted := ∅ |}, py_none) /\
  delivered ({| emitted := ∅ |} : OutputContext (py_object nat (list string)))
    "out"%string = [] /\
  emit_as_specified ({| emitted := ∅ |} : OutputContext (py_object nat (list string)))
    (py_tensor 1 []) (Some "out"%string)
    = Returned ({| emitted := {[ "out"%string := [py_tensor 1 []] ]} |}, py_none) /\
  delivered ({| emitted := {[ "out"%string := [py_tensor 1 []] ]} |}
               : OutputContext (py_object nat (list string))) "out"%string
    = [py_tensor 1 []].
Proof.
  split; [reflexivity |]. split; [reflexivity |]. split.
  - unfold emit_as_specified, delivered. simpl.
    rewrite lookup_empty. simpl. rewrite insert_empty. reflexivity.
  - unfold delivered. simpl. rewrite lookup_singleton_eq. reflexivity.
Qed.
End IOContextExamples.

(** ** Loading extensions *)

Section LoadFacts.
Import Extensions.
Context {Engine : Type} {gxf : GxfCore Engine}.

Lemma load_extensions_unfold (context : Z) (exts mans : list string) (base : string)
    (engine : Engine) (result : gxf_result_t) (engine' : Engine) :
  GxfLoadExtensions context (load_extensions_info exts mans base) engine
    = (result, engine') ->
  load_extensions context exts mans base engine =
    if decide (result <> GXF_SUCCESS)
    then (Raised (value_error (GxfResultStr result)), engine')
    else (Returned tt, engine').
Proof. intros Hcall. unfold load_extensions. rewrite Hcall. reflexivity. Qed.

(** C6: [load_extensions] makes one call to the engine with the context
    handle and the paths.  When the engine reports [GXF_SUCCESS] the call
    returns ([None]); on any other result it raises a [ValueError] whose
    message is the engine's name for that result. *)
Theorem load_extensions_reports_engine_result (context : Z)
    (exts mans : list string) (base : string) (engine : Engine) :
  exists (result : gxf_result_t) (engine' : Engine),
    GxfLoadExtensions context (load_extensions_info exts mans base) engine
      = (result, engine') /\
    ((result = GXF_SUCCESS /\
      load_extensions context exts mans base engine = (Returned tt, engine')) \/
     (result <> GXF_SUCCESS /\
      load_extensions context exts mans base engine
        = (Raised (value_error (GxfResultStr result)), engine'))).
Proof.
  destruct (GxfLoadExtensions context (load_extensions_info exts mans base) engine)
    as [result engine'] eqn:Hcall.
  exists result, engine'. split; [reflexivity |].
  rewrite (load_extensions_unfold _ _ _ _ _ _ _ Hcall).
  case_decide as Hres.
  - right. split; [exact Hres | reflexivity].
  - left. split; [| reflexivity].
    destruct (decide (result = GXF_SUCCESS)); [assumption | contradiction].
Qed.

(** What the engine is handed: the paths as C strings, the array pointers
    null exactly for an empty list, the lengths as [uint32_t]. *)
Lemma load_extensions_info_fields (exts mans : list string) (base : string) :
  let info := load_extensions_info exts mans base in
  (extension_filenames info = None <-> exts = []) /\
  (manifest_filenames info = None <-> mans = []) /\
  (0 <= extension_filenames_count info < 2 ^ 32)%Z /\
  (0 <= manifest_filenames_count info < 2 ^ 32)%Z.
Proof.
  simpl. repeat split.
  - destruct exts; simpl; [reflexivity | discriminate].
  - intros ->. reflexivity.
  - destruct mans; simpl; [reflexivity | discriminate].
  - intros ->. reflexivity.
  - apply Z.mod_pos_bound. reflexivity.
  - apply Z.mod_pos_bound. reflexivity.
  - apply Z.mod_pos_bound. reflexivity.
  - apply Z.mod_pos_bound. reflexivity.
Qed.
End LoadFacts.

Section LoadExamples.
Import Extensions.

Example load_extensions_success :
  load_extensions (gxf := Demo.demo_gxf) 1 ["libgxf_std.so"%string] [] EmptyString []
  = (Returned tt, ["libgxf_std.so"%string]).
Proof. vm_compute. reflexivity. Qed.

Example load_extensions_failure :
  load_extensions (gxf := Demo.demo_gxf) 0 ["libgxf_std.so"%string] [] EmptyString []
  = (Raised (value_error "GXF_FAILURE"%string), []).
Proof. vm_compute. reflexivity. Qed.
End LoadExamples.

(** ** The extension registrar *)

Section RegistrarFacts.
Import Registrar.

Lemma acceptable_spec (table : list type_record) (tid : gxf_tid_t) :
  acceptable table tid = true <-> tid <> default_tid /\ collides tid table = false.
Proof.
  unfold acceptable. rewrite andb_true_iff, !negb_true_iff, bool_decide_eq_false.
  reflexivity.
Qed.

(** A draw that comes out was in the source and is acceptable. *)
Lemma draw_tid_Some (table : list type_record) (source : list gxf_tid_t)
    (tid : gxf_tid_t) (rest : list gxf_tid_t) :
  draw_tid table source = Some (tid, rest) ->
  acceptable table tid = true /\ In tid source.
Proof.
  induction source as [| d source IH]; simpl; [discriminate |].
  destruct (acceptable table d) eqn:Hd.
  - intros [= <- <-]. split; [exact Hd | left; reflexivity].
  - intros Hdraw. destruct (IH Hdraw) as [Hacc Hin].
    split; [exact Hacc | right; exact Hin].
Qed.

(** The drawing gives up only when no draw of the source is acceptable. *)
Lemma draw_tid_None (table : list type_record) (source : list gxf_tid_t) :
  draw_tid table source = None <->
  Forall (fun tid => acceptable table tid = false) source.
Proof.
  induction source as [| d source IH]; simpl.
  - split; [intros _; constructor | reflexivity].
  - destruct (acceptable table d) eqn:Hd.
    + split; [discriminate |]. intros Hall. inversion Hall; congruence.
    + rewrite IH. split.
      * intros Hall. constructor; assumption.
      * intros Hall. inversion Hall; assumption.
Qed.

Lemma bind_type_default (desc : string) (r : GXFExtensionRegistrar) :
  bind_type desc default_tid r =
    match draw_tid (type_table r) (entropy r) with
    | Some (fresh, rest) =>
        Registered fresh
          {| type_table :=
               type_table r ++ [{| type_id := fresh; kind := kComponent;
                                   description := desc |}];
             entropy := rest |}
    | None => Exhausted
    end.
Proof.
  unfold bind_type, create_random_tid.
  case_decide; [| contradiction].
  destruct (draw_tid (type_table r) (entropy r)) as [[fresh rest] |]; reflexivity.
Qed.

(** A call with the reserved id never registers it and is never rejected:
    it registers an acceptable draw, or the random source held none. *)
Lemma reserved_tid_outcomes (desc : string) (r : GXFExtensionRegistrar) :
  (exists fresh rest,
     draw_tid (type_table r) (entropy r) = Some (fresh, rest) /\
     acceptable (type_table r) fresh = true /\
     add_component desc default_tid r =
       Registered fresh (record_type fresh kComponent desc
                           {| type_table := type_table r; entropy := rest |})) \/
  (add_component desc default_tid r = Exhausted /\
   Forall (fun t => acceptable (type_table r) t = false) (entropy r)).
Proof.
  unfold add_component. rewrite bind_type_default.
  destruct (draw_tid (type_table r) (entropy r)) as [[fresh rest] |] eqn:Hdraw.
  - left. exists fresh, rest. split; [reflexivity |].
    split; [apply (draw_tid_Some _ _ _ _ Hdraw) | reflexivity].
  - right. split; [reflexivity |]. apply draw_tid_None, Hdraw.
Qed.

(** C7: the reserved type id is the all-zero pair, and it is what
    [add_component] and [add_type] receive when [tid] is omitted.  A call
    with that id does not register it: provided the random source holds an
    acceptable draw, the call registers a generated id, which is not the
    reserved one, was drawn from the random source and collides with nothing
    in the session, under the given description. *)
Theorem reserved_tid_is_replaced (desc : option string) (tid : option gxf_tid_t)
    (r : GXFExtensionRegistrar) :
  tid = None \/ tid = Some default_tid ->
  Exists (fun t => acceptable (type_table r) t = true) (entropy r) ->
  default_tid = {| hash1 := 0; hash2 := 0 |} /\
  py_add_type desc tid r = py_add_component desc tid r /\
  exists (fresh : gxf_tid_t) (r' : GXFExtensionRegistrar),
    py_add_component desc tid r = Registered fresh r' /\
    fresh <> default_tid /\
    collides fresh (type_table r) = false /\
    In fresh (entropy r) /\
    type_table r' =
      type_table r ++ [{| type_id := fresh; kind := kComponent;
                          description := default EmptyString desc |}].
Proof.
  intros Htid Hsome.
  assert (default default_tid tid = default_tid) as Hdef
    by (destruct Htid as [-> | ->]; reflexivity).
  split; [reflexivity |]. split; [reflexivity |].
  unfold py_add_component, add_component. rewrite Hdef, bind_type_default.
  destruct (draw_tid (type_table r) (entropy r)) as [[fresh rest] |] eqn:Hdraw.
  - destruct (draw_tid_Some _ _ _ _ Hdraw) as [Hacc Hin].
    apply acceptable_spec in Hacc as [Hnz Hcol].
    eexists fresh, _. repeat split; assumption.
  - apply draw_tid_None in Hdraw. apply Exists_exists in Hsome as (t & Hin & Hacc).
    rewrite Forall_forall in Hdraw. rewrite (Hdraw t Hin) in Hacc. discriminate.
Qed.

(** A supplied id that is not the reserved one is used as given, unless it
    collides. *)
Lemma supplied_tid_is_kept (desc : string) (tid : gxf_tid_t) (r : GXFExtensionRegistrar) :
  tid <> default_tid -> collides tid (type_table r) = false ->
  add_component desc tid r = Registered tid (record_type tid kComponent desc r).
Proof.
  intros Hnz Hcol. unfold add_component, bind_type.
  case_decide; [contradiction |]. rewrite Hcol. reflexivity.
Qed.
End RegistrarFacts.

Section RegistrarExamples.
Import Registrar.

(** A session that already holds the id (5, 6), and a random source whose
    first draw is the reserved id and whose second collides: the third draw
    is the one registered. *)
Example add_component_skips_bad_draws :
  py_add_component (Some "codelet"%string) None
    {| type_table := [{| type_id := {| hash1 := 5; hash2 := 6 |}; kind := kComponent;
                         description := "first"%string |}];
       entropy := [default_tid; {| hash1 := 5; hash2 := 6 |};
                   {| hash1 := 7; hash2 := 8 |}; {| hash1 := 9; hash2 := 10 |}] |}
  = Registered {| hash1 := 7; hash2 := 8 |}
      {| type_table := [{| type_id := {| hash1 := 5; hash2 := 6 |}; kind := kComponent;
                           description := "first"%string |};
                        {| type_id := {| hash1 := 7; hash2 := 8 |}; kind := kComponent;
                           description := "codelet"%string |}];
         entropy := [{| hash1 := 9; hash2 := 10 |}] |}.
Proof. vm_compute. reflexivity. Qed.

Lemma reserved_tid_is_replaced_witness :
  ((None : option gxf_tid_t) = None \/ (None : option gxf_tid_t) = Some default_tid) /\
  Exists (fun t => acceptable [] t = true) [default_tid; {| hash1 := 7; hash2 := 8 |}] /\
  (default_tid = {| hash1 := 0; hash2 := 0 |} /\
   py_add_type (Some "codelet"%string) None
     {| type_table := []; entropy := [default_tid; {| hash1 := 7; hash2 := 8 |}] |}
   = py_add_component (Some "codelet"%string) None
       {| type_table := []; entropy := [default_tid; {| hash1 := 7; hash2 := 8 |}] |} /\
   exists (fresh : gxf_tid_t) (r' : GXFExtensionRegistrar),
     py_add_component (Some "codelet"%string) None
       {| type_table := []; entropy := [default_tid; {| hash1 := 7; hash2 := 8 |}] |}
     = Registered fresh r' /\
     fresh <> default_tid /\
     collides fresh [] = false /\
     In fresh [default_tid; {| hash1 := 7; hash2 := 8 |}] /\
     type_table r' =
       [] ++ [{| type_id := fresh; kind := kComponent;
                 description := "codelet"%string |}]).
Proof.
  assert (Exists (fun t => acceptable [] t = true)
            [default_tid; {| hash1 := 7; hash2 := 8 |}]) as Hsome.
  { apply Exists_cons_tl, Exists_cons_hd. vm_compute. reflexivity. }
  split; [left; reflexivity |]. split; [exact Hsome |].
  exact (reserved_tid_is_replaced (Some "codelet"%string) None
           {| type_table := []; entropy := [default_tid; {| hash1 := 7; hash2 := 8 |}] |}
           (or_introl eq_refl) Hsome).
Defined.
End RegistrarExamples.

(** ** The parameter maps of [MultiAIPostprocessorOp] *)

Section DataMapFacts.

Lemma DataMap_insert_all_snoc (kvs : list (string * string)) (kv : string * string)
    (d : DataMap.t) :
  DataMap.insert_all (kvs ++ [kv]) d
    = DataMap.insert kv.1 kv.2 (DataMap.insert_all kvs d).
Proof. unfold DataMap.insert_all. rewrite fold_left_app. reflexivity. Qed.

Lemma DataMap_insert_truthy (key value : string) (d : DataMap.t) :
  DataMap.to_bool (DataMap.insert key value d) = true.
Proof.
  unfold DataMap.to_bool, DataMap.insert. simpl.
  rewrite bool_decide_eq_false_2; [reflexivity |]. apply insert_non_empty.
Qed.

(** After any run of [insert] calls, the map holds under each key the value
    of the last call made with that key, and what it held before under a key
    no call was made with. *)
Theorem DataMap_last_insert_wins (kvs : list (string * string)) (d : DataMap.t)
    (key : string) :
  DataMap.get_map (DataMap.insert_all kvs d) !! key =
    match last (filter (fun kv => kv.1 = key) kvs) with
    | Some kv => Some kv.2
    | None => DataMap.get_map d !! key
    end.
Proof.
  induction kvs as [| kv kvs IH] using rev_ind; [reflexivity |].
  rewrite DataMap_insert_all_snoc, filter_app.
  unfold DataMap.get_map, DataMap.insert in *. simpl.
  destruct (decide (kv.1 = key)) as [Hk | Hk].
  - rewrite filter_cons_True by exact Hk. rewrite filter_nil, last_snoc.
    rewrite Hk. apply lookup_insert_eq.
  - rewrite filter_cons_False by exact Hk. rewrite filter_nil, app_nil_r.
    rewrite lookup_insert_ne by exact Hk. exact IH.
Qed.

(** A [DataMap] converts to [true] exactly when at least one [insert] has
    been made on it since it was default-constructed. *)
Theorem DataMap_truthy_iff_inserted (kvs : list (string * string)) :
  DataMap.to_bool (DataMap.insert_all kvs DataMap.make) = negb (bool_decide (kvs = [])).
Proof.
  destruct kvs as [| kv kvs] using rev_ind; [reflexivity |].
  rewrite DataMap_insert_all_snoc, DataMap_insert_truthy.
  rewrite bool_decide_eq_false_2; [reflexivity |].
  intros Heq. apply app_eq_nil in Heq as [_ Heq]. discriminate.
Qed.
End DataMapFacts.

Section DataVecMapFacts.

(** Pushing a non-empty run of values under one key comes to one update of
    that key. *)
Lemma push_back_run (key : string) (vals : list string) (v : string)
    (m : gmap string (list string)) :
  fold_left (DataVecMap.push_back key) (v :: vals) m
    = <[key := (default [] (m !! key) ++ v :: vals)%list]> m.
Proof.
  revert v m. induction vals as [| w vals IH]; intros v m; [reflexivity |].
  change (fold_left (DataVecMap.push_back key) (v :: w :: vals) m)
    with (fold_left (DataVecMap.push_back key) (w :: vals)
            (DataVecMap.push_back key m v)).
  rewrite IH. unfold DataVecMap.push_back.
  rewrite lookup_insert_eq, insert_insert_eq. simpl.
  rewrite <- app_assoc. reflexivity.
Qed.

Lemma DataVecMap_insert_nil (key : string) (d : DataVecMap.t) :
  DataVecMap.insert key [] d = d.
Proof. destruct d. reflexivity. Qed.

(** [insert] with an empty vector makes no entry: the map is left as it was,
    the key is not created, and a default-constructed map still converts to
    [false] afterwards. *)
Theorem DataVecMap_insert_empty_vector (key : string) (d : DataVecMap.t) :
  DataVecMap.insert key [] d = d /\
  DataVecMap.get_map (DataVecMap.insert key [] DataVecMap.make) !! key = None /\
  DataVecMap.to_bool (DataVecMap.insert key [] DataVecMap.make) = false.
Proof.
  split; [apply DataVecMap_insert_nil |].
  rewrite DataVecMap_insert_nil. split; reflexivity.
Qed.

(** [insert] appends: afterwards the key holds what it held before (nothing,
    if it was absent) followed by the new values in order, and every other
    key is untouched. *)
Theorem DataVecMap_insert_appends (key : string) (vals : list string)
    (d : DataVecMap.t) (other : string) :
  DataVecMap.values_of key (DataVecMap.insert key vals d)
    = (DataVecMap.values_of key d ++ vals)%list /\
  (other <> key ->
   DataVecMap.get_map (DataVecMap.insert key vals d) !! other
     = DataVecMap.get_map d !! other).
Proof.
  destruct vals as [| v vals].
  - rewrite DataVecMap_insert_nil, app_nil_r. split; [reflexivity | intros _; reflexivity].
  - unfold DataVecMap.values_of, DataVecMap.get_map, DataVecMap.insert.
    cbn [DataVecMap.mappings_]. rewrite push_back_run. split.
    + rewrite lookup_insert_eq. reflexivity.
    + intros Hother. apply lookup_insert_ne. congruence.
Qed.

(** Two [insert] calls with the same key come to one call with the two
    vectors joined: the second call never overwrites what the first
    stored. *)
Theorem DataVecMap_insert_twice (key : string) (vals1 vals2 : list string)
    (d : DataVecMap.t) :
  DataVecMap.insert key vals2 (DataVecMap.insert key vals1 d)
    = DataVecMap.insert key (vals1 ++ vals2) d.
Proof. unfold DataVecMap.insert. simpl. rewrite fold_left_app. reflexivity. Qed.

(** After [insert] the map converts to [true] exactly when it did before or
    the inserted vector is not empty. *)
Theorem DataVecMap_truthy_after_insert (key : string) (vals : list string)
    (d : DataVecMap.t) :
  DataVecMap.to_bool (DataVecMap.insert key vals d)
    = DataVecMap.to_bool d || negb (bool_decide (vals = [])).
Proof.
  destruct vals as [| v vals].
  - rewrite DataVecMap_insert_nil, orb_false_r. reflexivity.
  - unfold DataVecMap.to_bool, DataVecMap.insert. cbn [DataVecMap.mappings_].
    rewrite push_back_run.
    rewrite (bool_decide_eq_false_2 (<[key := _]> _ = ∅)) by apply insert_non_empty.
    rewrite orb_true_r. reflexivity.
Qed.
End DataVecMapFacts.

Section DataMapExamples.

Example DataMap_overwrite :
  DataMap.get_map
    (DataMap.insert_all [("in"%string, "a"%string); ("in"%string, "b"%string)]
       DataMap.make) !! "in"%string = Some "b"%string.
Proof. vm_compute. reflexivity. Qed.

Example DataVecMap_accumulate :
  DataVecMap.values_of "in"%string
    (DataVecMap.insert "in"%string ["b"%string]
       (DataVecMap.insert "in"%string ["a"%string] DataVecMap.make))
  = ["a"%string; "b"%string].
Proof. vm_compute. reflexivity. Qed.
End DataMapExamples.

(** ** More on the asynchronous condition *)

Section AsynchronousSharing.
Import Asynchronous.
Context {T : Type} {term : SchedulingTerm T}.

(** A write reaches at most the one term the condition points at: the
    handle stays what it was, the same addresses hold live terms afterwards,
    and every term at another address is left exactly as it was. *)
Theorem event_state_set_frame (s : AsynchronousEventState) (mem mem' : gmap N T)
    (c c' : AsynchronousCondition) :
  event_state_set s mem c = Some (mem', c') ->
  gxf_cptr_ c' = gxf_cptr_ c /\
  dom mem' = dom mem /\
  forall q : N, q <> gxf_cptr_ c -> mem' !! q = mem !! q.
Proof.
  unfold event_state_set. intros Hset.
  case_decide as Hp.
  - destruct (mem !! gxf_cptr_ c) as [t |] eqn:Ht; [| discriminate].
    injection Hset as <- <-. split; [reflexivity |]. split.
    + apply dom_insert_lookup_L. eauto.
    + intros q Hq. apply lookup_insert_ne. congruence.
  - injection Hset as <- <-. split; [reflexivity |]. split; [reflexivity |].
    intros q _. reflexivity.
Qed.

(** Two conditions bound to the same live term share its state: a state
    written through one is the state read through the other, whatever the
    other's own local field holds.  This needs the term to make a write
    visible to the next read. *)
Theorem shared_term_is_shared_state {visible : VisibleWrites T}
    (s : AsynchronousEventState) (mem : gmap N T) (writer reader : AsynchronousCondition) :
  gxf_cptr_ writer <> nullptr ->
  gxf_cptr_ reader = gxf_cptr_ writer ->
  is_Some (mem !! gxf_cptr_ writer) ->
  exists mem' writer',
    event_state_set s mem writer = Some (mem', writer') /\
    event_state_get mem' reader = Some s.
Proof.
  intros Hp Hsame [t Ht].
  exists (<[gxf_cptr_ writer := setEventState t s]> mem),
         {| gxf_cptr_ := gxf_cptr_ writer; event_state_ := s |}.
  split; [apply event_state_set_live; assumption |].
  rewrite (event_state_get_live _ reader (setEventState t s)).
  - f_equal. apply get_after_set.
  - congruence.
  - rewrite Hsame. apply lookup_insert_eq.
Qed.
End AsynchronousSharing.

Section AsynchronousSharingExamples.
Import Asynchronous.

(** A write through the handle 7 next to a second live term at address 9. *)
Lemma event_state_set_frame_witness :
  event_state_set (term := cell_term) EVENT_DONE
    {[ 7%N := EVENT_WAITING; 9%N := EVENT_NEVER ]}
    {| gxf_cptr_ := 7; event_state_ := EVENT_WAITING |}
  = Some ({[ 7%N := EVENT_DONE; 9%N := EVENT_NEVER ]},
          {| gxf_cptr_ := 7; event_state_ := EVENT_DONE |}) /\
  (gxf_cptr_ {| gxf_cptr_ := 7; event_state_ := EVENT_DONE |}
     = gxf_cptr_ {| gxf_cptr_ := 7; event_state_ := EVENT_WAITING |} /\
   dom ({[ 7%N := EVENT_DONE; 9%N := EVENT_NEVER ]} : gmap N AsynchronousEventState)
     = dom ({[ 7%N := EVENT_WAITING; 9%N := EVENT_NEVER ]}
              : gmap N AsynchronousEventState) /\
   forall q : N, q <> gxf_cptr_ {| gxf_cptr_ := 7; event_state_ := EVENT_WAITING |} ->
     ({[ 7%N := EVENT_DONE; 9%N := EVENT_NEVER ]} : gmap N AsynchronousEventState) !! q
     = ({[ 7%N := EVENT_WAITING; 9%N := EVENT_NEVER ]}
          : gmap N AsynchronousEventState) !! q).
Proof.
  assert (event_state_set (term := cell_term) EVENT_DONE
            {[ 7%N := EVENT_WAITING; 9%N := EVENT_NEVER ]}
            {| gxf_cptr_ := 7; event_state_ := EVENT_WAITING |}
          = Some ({[ 7%N := EVENT_DONE; 9%N := EVENT_NEVER ]},
                  {| gxf_cptr_ := 7; event_state_ := EVENT_DONE |})) as Hset
    by (vm_compute; reflexivity).
  split; [exact Hset |].
  exact (@event_state_set_frame _ cell_term EVENT_DONE _ _ _ _ Hset).
Defined.
End AsynchronousSharingExamples.

Section SharedTermExample.
Import Asynchronous.

(** A writer and a reader on the live cell term at address 7; the reader's
    own field says [EVENT_NEVER]. *)
Lemma shared_term_is_shared_state_witness :
  (gxf_cptr_ {| gxf_cptr_ := 7; event_state_ := EVENT_WAITING |} <> nullptr /\
   gxf_cptr_ {| gxf_cptr_ := 7; event_state_ := EVENT_NEVER |}
     = gxf_cptr_ {| gxf_cptr_ := 7; event_state_ := EVENT_WAITING |} /\
   is_Some (({[ 7%N := EVENT_WAITING ]} : gmap N AsynchronousEventState)
              !! gxf_cptr_ {| gxf_cptr_ := 7; event_state_ := EVENT_WAITING |})) /\
  exists mem' writer',
    event_state_set (term := cell_term) EVENT_DONE {[ 7%N := EVENT_WAITING ]}
      {| gxf_cptr_ := 7; event_state_ := EVENT_WAITING |} = Some (mem', writer') /\
    event_state_get (term := cell_term) mem'
      {| gxf_cptr_ := 7; event_state_ := EVENT_NEVER |} = Some EVENT_DONE.
Proof.
  assert (gxf_cptr_ {| gxf_cptr_ := 7; event_state_ := EVENT_WAITING |} <> nullptr)
    as Hp by (vm_compute; discriminate).
  assert (is_Some (({[ 7%N := EVENT_WAITING ]} : gmap N AsynchronousEventState)
                     !! gxf_cptr_ {| gxf_cptr_ := 7; event_state_ := EVENT_WAITING |}))
    as Hlive by (exists EVENT_WAITING; vm_compute; reflexivity).
  split; [split; [exact Hp | split; [reflexivity | exact Hlive]] |].
  exact (@shared_term_is_shared_state _ cell_term cell_term_visible EVENT_DONE
           {[ 7%N := EVENT_WAITING ]}
           {| gxf_cptr_ := 7; event_state_ := EVENT_WAITING |}
           {| gxf_cptr_ := 7; event_state_ := EVENT_NEVER |} Hp eq_refl Hlive).
Defined.
End SharedTermExample.

(** ** More on the Python entity and on loading extensions *)

Section PyAddNeverRaises.
Import Entity.
Context {Tensor DLCtx PyAttrs E : Type}.
Context {interop : TensorInterop Tensor DLCtx PyAttrs} {ops : EntityOps Tensor E}.

(** [py_add] raises for no argument: the cast to a tensor is reached only
    behind the instance test and cannot fail there.  It returns either
    [None], with the entity left as it was, or the very object it was
    given. *)
Theorem py_add_never_raises (self : E) (value : py_object Tensor PyAttrs)
    (name : string) :
  raises (py_add self value name) = false /\
  (py_add self value name = Returned (self, py_none) \/
   exists self', py_add self value name = Returned (self', value)).
Proof.
  destruct value as [| tensor attrs | ty].
  - split; [reflexivity | left; reflexivity].
  - split; [reflexivity | right; eexists; reflexivity].
  - split; [reflexivity | left; reflexivity].
Qed.
End PyAddNeverRaises.

Section LoadInfoFacts.
Import Extensions.

Lemma c_str_nul_free (s : string) : nul_free s = true -> c_str s = s.
Proof.
  induction s as [| c s IH]; simpl; [reflexivity |].
  intros Hfree. apply andb_true_iff in Hfree as [Hc Hs].
  apply negb_true_iff in Hc. rewrite Hc, (IH Hs). reflexivity.
Qed.


Lemma map_c_str_nul_free (paths : list string) :
  Forall (fun p => nul_free p = true) paths -> List.map c_str paths = paths.
Proof.
  induction 1 as [| p paths Hp _ IH]; simpl; [reflexivity |].
  rewrite (c_str_nul_free p Hp), IH. reflexivity.
Qed.

(** Paths that hold no NUL character reach the engine as given: the two
    arrays carry the paths in order (a null pointer for an empty list), the
    counts are the numbers of paths, and the base directory is passed
    unchanged.  The counts are [uint32_t], so this needs fewer than [2^32]
    paths in each list. *)
Theorem load_extensions_info_faithful (exts mans : list string) (base : string) :
  Forall (fun p => nul_free p = true) exts ->
  Forall (fun p => nul_free p = true) mans ->
  nul_free base = true ->
  (Z.of_nat (List.length exts) < 2 ^ 32)%Z ->
  (Z.of_nat (List.length mans) < 2 ^ 32)%Z ->
  load_extensions_info exts mans base =
    {| extension_filenames := data_or_nullptr exts;
       extension_filenames_count := Z.of_nat (List.length exts);
       manifest_filenames := data_or_nullptr mans;
       manifest_filenames_count := Z.of_nat (List.length mans);
       base_directory := base |}.
Proof.
  intros Hexts Hmans Hbase Hn Hm. unfold load_extensions_info, size_uint32.
  rewrite (map_c_str_nul_free exts Hexts), (map_c_str_nul_free mans Hmans),
    (c_str_nul_free base Hbase).
  rewrite !Z.mod_small by (split; [apply Nat2Z.is_nonneg | assumption]).
  reflexivity.
Qed.

End LoadInfoFacts.

Section LoadInfoExamples.
Import Extensions.

Lemma load_extensions_info_faithful_witness :
  (Forall (fun p => nul_free p = true) ["libgxf_std.so"%string] /\
   Forall (fun p => nul_free p = true) [] /\
   nul_free "/opt"%string = true /\
   (Z.of_nat (List.length ["libgxf_std.so"%string]) < 2 ^ 32)%Z /\
   (Z.of_nat (List.length (@nil string)) < 2 ^ 32)%Z) /\
  load_extensions_info ["libgxf_std.so"%string] [] "/opt"%string =
    {| extension_filenames := data_or_nullptr ["libgxf_std.so"%string];
       extension_filenames_count := Z.of_nat (List.length ["libgxf_std.so"%string]);
       manifest_filenames := data_or_nullptr [];
       manifest_filenames_count := Z.of_nat (List.length (@nil string));
       base_directory := "/opt"%string |}.
Proof.
  assert (Forall (fun p => nul_free p = true) ["libgxf_std.so"%string]) as Hexts
    by (repeat constructor).
  assert (Forall (fun p : string => nul_free p = true) []) as Hmans by constructor.
  assert (nul_free "/opt"%string = true) as Hbase by reflexivity.
  assert (Z.of_nat (List.length ["libgxf_std.so"%string]) < 2 ^ 32)%Z as Hn
    by (vm_compute; reflexivity).
  assert (Z.of_nat (List.length (@nil string)) < 2 ^ 32)%Z as Hm
    by (vm_compute; reflexivity).
  split; [repeat split; assumption |].
  exact (load_extensions_info_faithful ["libgxf_std.so"%string] [] "/opt"%string
           Hexts Hmans Hbase Hn Hm).
Defined.

(** A path with a NUL inside is cut there. *)
Example c_str_cuts :
  c_str (String "a" (String "b" (String Ascii.zero (String "c" EmptyString))))
  = "ab"%string.
Proof. reflexivity. Qed.
End LoadInfoExamples.
